(** * yum_repository_info: the repo-file parser, embedded and verified

    The repository holds one algorithm, written twice: the loop of
    [run_module] in [library/yum_repository_info.py] (lines 130-148) and the
    same loop at module level in [yum_repository_info.py] (lines 6-20).  It
    reads a yum [.repo] file, splits it on newlines and folds the lines into a
    dictionary of dictionaries.

    The embedding is shallow: Python's [str] is a list of code points, the
    insertion-ordered [dict] is an association list with Python's update
    discipline, exceptions are an error result, and the file system and the
    Ansible entry points are explicit values. *)

From Stdlib Require Import List Arith NArith Ascii String Bool Lia.
Import ListNotations.

Local Open Scope N_scope.

(** ** Python's [str] *)

(** A character is a Unicode code point, a string a list of them. *)
Definition char : Type := N.
Definition str : Type := list char.

Definition ord (a : ascii) : char := N_of_ascii a.

(** [lit] reads a literal written in the source. *)
Definition lit (x : string) : str := map ord (list_ascii_of_string x).

Definition nl : char := 10.
Definition hash : char := ord "#".
Definition lbracket : char := ord "[".
Definition rbracket : char := ord "]".
Definition equals : char := ord "=".

Fixpoint str_eqb (a b : str) : bool :=
  match a, b with
  | [], [] => true
  | x :: a', y :: b' => (x =? y) && str_eqb a' b'
  | _, _ => false
  end.

(** [str.isspace] on one code point: the characters CPython's
    [_PyUnicode_IsWhitespace] accepts, which are the ones [str.strip()]
    removes when it is called without argument. *)
Definition isspace (c : char) : bool :=
  ((9 <=? c) && (c <=? 13)) || ((28 <=? c) && (c <=? 32))
  || (c =? 133) || (c =? 160) || (c =? 5760)
  || ((8192 <=? c) && (c <=? 8202))
  || (c =? 8232) || (c =? 8233) || (c =? 8239) || (c =? 8287)
  || (c =? 12288).

Fixpoint dropwhile (p : char -> bool) (s : str) : str :=
  match s with
  | [] => []
  | c :: r => if p c then dropwhile p r else s
  end.

Definition lstrip (s : str) : str := dropwhile isspace s.
Definition rstrip (s : str) : str := rev (dropwhile isspace (rev s)).

(** [s.strip()] *)
Definition strip (s : str) : str := rstrip (lstrip s).

(** [s.startswith(c)] for a one-character prefix [c], the only use the
    source makes of it. *)
Definition startswith (c : char) (s : str) : bool :=
  match s with
  | [] => false
  | x :: _ => x =? c
  end.

(** [s.replace(c, '')] for a one-character [c]: every occurrence goes. *)
Definition replace_empty (c : char) (s : str) : str :=
  filter (fun x => negb (x =? c)) s.

(** [s.split(sep)] for a one-character separator: the pieces between ALL
    occurrences of [sep], so the result has one more element than [s] has
    separators, and [''.split(sep)] is [['']]. *)
Fixpoint split (sep : char) (s : str) : list str :=
  match s with
  | [] => [[]]
  | c :: r =>
      if c =? sep then [] :: split sep r
      else match split sep r with
           | piece :: pieces => (c :: piece) :: pieces
           | [] => [[c]]
           end
  end.

(** [sep.join(pieces)], the inverse used to write inputs down. *)
Fixpoint join (sep : char) (pieces : list str) : str :=
  match pieces with
  | [] => []
  | [p] => p
  | p :: ps => p ++ sep :: join sep ps
  end.

(** Number of occurrences of [c], [s.count(c)]. *)
Definition count (c : char) (s : str) : nat :=
  List.length (filter (fun x => x =? c) s).

(** ** Python's [dict]

    Keys are strings; the order is insertion order; assigning to a key that
    is present replaces the value where it stands, assigning to a new key
    appends. *)
Definition dict (V : Type) : Type := list (str * V).

Fixpoint getitem {V : Type} (k : str) (d : dict V) : option V :=
  match d with
  | [] => None
  | (k', v) :: r => if str_eqb k' k then Some v else getitem k r
  end.

Fixpoint setitem {V : Type} (k : str) (v : V) (d : dict V) : dict V :=
  match d with
  | [] => [(k, v)]
  | (k', v') :: r =>
      if str_eqb k' k then (k', v) :: r else (k', v') :: setitem k v r
  end.

(** ** Exceptions *)

(** The exceptions the loop and the file read can raise.
    - [ValueError got]: the tuple assignment [k, v = line.split("=")] received
      [got] values, [got <> 2] ("not enough values to unpack" for 1, "too many
      values to unpack" from 3 on).
    - [KeyError key]: the subscription [test_dict[current_repo]] found no such
      key; [None] is the value [current_repo] has before the first header.
    - [OSError errno]: raised by [open(...)] or [read()]. *)
Inductive exn : Type :=
| ValueError (got : nat)
| KeyError (key : option str)
| OSError (errno : N).

Inductive res (A : Type) : Type :=
| Ok (a : A)
| Raise (e : exn).
Arguments Ok {A} a.
Arguments Raise {A} e.

Definition bind {A B : Type} (m : res A) (f : A -> res B) : res B :=
  match m with
  | Ok a => f a
  | Raise e => Raise e
  end.

Notation "x <- m ;; k" := (bind m (fun x => k))
  (at level 61, m at next level, right associativity).

(** ** The parse loop *)

(** The two variables the loop updates. *)
Record state : Type := mkState {
  test_dict : dict (dict str);
  current_repo : option str
}.

(** [test_dict = dict()] and [current_repo = None]. *)
Definition init : state := mkState [] None.

(** The name a header line gives: both bracket characters removed wherever
    they occur,
    [current_repo = line.replace('[','')] then
    [current_repo = current_repo.replace(']','')]. *)
Definition section_name (line : str) : str :=
  replace_empty rbracket (replace_empty lbracket line).

(** The [elif line.startswith('[')] branch. *)
Definition header (st : state) (line : str) : state :=
  let name := section_name line in
  mkState (setitem name [] (test_dict st)) (Some name).

(** The [else] branch:
    [k, v = line.split("=")] then
    [test_dict[current_repo][k.strip()] = v.strip()].
    The unpacking comes first, so a line with a wrong number of [=] raises
    [ValueError] whether or not a section is open.  The subscription
    [test_dict[current_repo]] raises [KeyError] when the key is absent;
    [current_repo] is [None] before the first header and only strings are
    ever stored as keys.  The inner dictionary is updated in place: the outer
    one keeps its keys and their order. *)
Definition setting (st : state) (line : str) : res state :=
  match split equals line with
  | [k; v] =>
      match current_repo st with
      | None => Raise (KeyError None)
      | Some r =>
          match getitem r (test_dict st) with
          | None => Raise (KeyError (Some r))
          | Some inner =>
              Ok (mkState
                    (setitem r (setitem (strip k) (strip v) inner) (test_dict st))
                    (current_repo st))
          end
      end
  | parts => Raise (ValueError (List.length parts))
  end.

(** The body of [for line in lines]. *)
Definition step (st : state) (line : str) : res state :=
  if negb (str_eqb (strip line) []) then
    if startswith hash line then Ok st
    else if startswith lbracket line then Ok (header st line)
    else setting st line
  else Ok st.

(** [for line in lines: ...], stopping at the first exception. *)
Fixpoint run (st : state) (lines : list str) : res state :=
  match lines with
  | [] => Ok st
  | line :: rest => st' <- step st line ;; run st' rest
  end.

(** The loop from the initial variables, giving the final [test_dict]. *)
Definition parse_lines (lines : list str) : res (dict (dict str)) :=
  st <- run init lines ;; Ok (test_dict st).

(** [lines = <file contents>.split('\n')] followed by the loop. *)
Definition parse (text : str) : res (dict (dict str)) :=
  parse_lines (split nl text).

(** The section named by [current_repo] is a key of [test_dict]: the header
    branch stores the key when it sets the variable, and no key is ever
    removed. *)
Definition open_section_present (st : state) : Prop :=
  forall r, current_repo st = Some r ->
            exists inner, getitem r (test_dict st) = Some inner.

(** ** Which branch a line takes *)

Inductive branch : Type := Blank | Comment | Header | Setting.

(** The conditions of the [if]/[elif] chain, in the source's order. *)
Definition branch_of (line : str) : branch :=
  if negb (str_eqb (strip line) []) then
    if startswith hash line then Comment
    else if startswith lbracket line then Header
    else Setting
  else Blank.

(** Lines made of whitespace only, the empty line included. *)
Definition is_blank (line : str) : bool := forallb isspace line.

(** Lines the loop passes over: blank ones and comments. *)
Definition skipped (line : str) : bool :=
  is_blank line || startswith hash line.

(** ** The Ansible module around the loop *)

(** What the module sees of the file system: [os.path.exists] and
    [open(path, 'r').read()]. *)
Record filesystem : Type := mkFs {
  exists_ : str -> bool;
  read_text : str -> res str
}.

(** The value under the key [repo_view] of [result]: the string ['[]'] it
    is initialised with, or the parsed dictionary. *)
Inductive repo_view_t : Type :=
| Placeholder
| View (d : dict (dict str)).

Record result : Type := mkResult {
  changed : bool;
  failed : bool;
  repo_view : repo_view_t
}.

(** How a call of [run_module] ends: [module.exit_json] on [result],
    [module.fail_json] on a message and [result] (both leave the process), or
    an exception nobody catches. *)
Inductive outcome : Type :=
| exit_json (r : result)
| fail_json (msg : str) (r : result)
| uncaught (e : exn).

Definition validate_path (fs : filesystem) (path_spec : str) : bool :=
  exists_ fs path_spec.

Definition run_module (fs : filesystem) (path : str) (check_mode : bool) : outcome :=
  let result0 := mkResult false false Placeholder in
  if check_mode then exit_json result0
  else if Bool.eqb (validate_path fs path) false then
    fail_json (lit "The path does not exist") result0
  else
    match read_text fs path with
    | Raise e => uncaught e
    | Ok text =>
        match parse text with
        | Raise e => uncaught e
        | Ok d => exit_json (mkResult true false (View d))
        end
    end.

(** ** Inputs used below *)

(** The sample file of the specification. *)
Definition sample_lines : list str :=
  [ lit "[main]"; lit "enabled=1"; lit "gpgcheck = 1"; lit "# a comment"; [];
    lit "[updates]"; lit "baseurl=http://example.com/updates" ].

Definition sample_view : dict (dict str) :=
  [ (lit "main", [ (lit "enabled", lit "1"); (lit "gpgcheck", lit "1") ]);
    (lit "updates", [ (lit "baseurl", lit "http://example.com/updates") ]) ].

(** A setting line written with whitespace around both sides:
    [ws1 key ws2 = ws3 value ws4]. *)
Definition padded_setting (ws1 key ws2 ws3 value ws4 : str) : str :=
  (ws1 ++ key ++ ws2) ++ equals :: (ws3 ++ value ++ ws4).

(** The lines of an input that are neither blank nor comments. *)
Definition without_skipped (lines : list str) : list str :=
  filter (fun line => negb (skipped line)) lines.

(** A file system where every path exists and no file can be read
    (errno 13, [EACCES]). *)
Definition unreadable_fs : filesystem :=
  mkFs (fun _ => true) (fun _ => Raise (OSError 13)).

(** A file system without any file (errno 2, [ENOENT]). *)
Definition empty_fs : filesystem :=
  mkFs (fun _ => false) (fun _ => Raise (OSError 2)).

(** A file system holding one readable file. *)
Definition one_file_fs (path text : str) : filesystem :=
  mkFs (fun p => str_eqb p path)
       (fun p => if str_eqb p path then Ok text else Raise (OSError 2)).

(** ** The stand-alone script

    [yum_repository_info.py] at the top of the repository runs the same loop
    on a fixed path, with no test that the file exists: the read raises when
    it does not. *)
Definition repo_file : str := lit "/etc/yum.repos.d/redhat.repo".

Definition script (fs : filesystem) : res (dict (dict str)) :=
  text <- read_text fs repo_file ;; parse text.

(** ** Notions that describe a result *)

(** The keys of a dictionary, in its order: [list(d)]. *)
Definition keys {V : Type} (d : dict V) : list str := map fst d.

(** A list of names with one more name, added at the end when it is new. *)
Definition add_key (ks : list str) (k : str) : list str :=
  if existsb (fun k' => str_eqb k' k) ks then ks else ks ++ [k].

(** The names of a list, each at the place of its first occurrence. *)
Definition first_occurrences (names : list str) : list str :=
  fold_left add_key names [].

(** The lines that start with the opening bracket, and the names they give. *)
Definition is_header (line : str) : bool := startswith lbracket line.

Definition header_names (lines : list str) : list str :=
  map section_name (filter is_header lines).

(** The pair a line with exactly one [=] stores. *)
Definition key_value (line : str) : option (str * str) :=
  match split equals line with
  | [k; v] => Some (strip k, strip v)
  | _ => None
  end.

(** The pairs stored by the lines of a block, comments and blank lines
    left out, in the order of the lines. *)
Definition settings_of (lines : list str) : list (str * str) :=
  flat_map (fun line =>
              if skipped line then []
              else match key_value line with
                   | Some kv => [kv]
                   | None => []
                   end) lines.

(** [d[k] = v] for each pair in turn. *)
Definition put_all (d : dict str) (kvs : list (str * str)) : dict str :=
  fold_left (fun acc kv => setitem (fst kv) (snd kv) acc) kvs d.

(** A string without whitespace at either end and without [=]. *)
Definition clean (s : str) : Prop := strip s = s /\ count equals s = 0%nat.

(** A string without brackets. *)
Definition bracket_free (s : str) : Prop :=
  count lbracket s = 0%nat /\ count rbracket s = 0%nat.

(** ** Sanity checks *)

Example parse_sample : parse (join nl sample_lines) = Ok sample_view.
Proof. vm_compute. reflexivity. Qed.

(** ** Strings: equality, whitespace, stripping *)

Lemma str_eqb_eq (a b : str) : str_eqb a b = true <-> a = b.
Proof.
  revert b; induction a as [|x a IH]; intros [|y b]; simpl;
    try (split; [discriminate | congruence]); try tauto.
  rewrite andb_true_iff, N.eqb_eq, IH. split.
  - intros [-> ->]; reflexivity.
  - intros E; injection E; auto.
Qed.

Lemma str_eqb_refl (a : str) : str_eqb a a = true.
Proof. apply str_eqb_eq; reflexivity. Qed.

Lemma str_eqb_neq (a b : str) : str_eqb a b = false <-> a <> b.
Proof.
  rewrite <- str_eqb_eq. destruct (str_eqb a b); split; congruence.
Qed.

Lemma str_eqb_nil (a : str) : str_eqb a [] = match a with [] => true | _ => false end.
Proof. destruct a; reflexivity. Qed.

Lemma isspace_hash : isspace hash = false.
Proof. reflexivity. Qed.

Lemma isspace_lbracket : isspace lbracket = false.
Proof. reflexivity. Qed.

Lemma isspace_equals : isspace equals = false.
Proof. reflexivity. Qed.

Lemma dropwhile_nil (p : char -> bool) (s : str) :
  dropwhile p s = [] <-> forallb p s = true.
Proof.
  induction s as [|c s IH]; simpl.
  - tauto.
  - destruct (p c); simpl; [exact IH | split; discriminate].
Qed.

Lemma dropwhile_all (p : char -> bool) (ws s : str) :
  forallb p ws = true -> dropwhile p (ws ++ s) = dropwhile p s.
Proof.
  induction ws as [|c ws IH]; simpl; [reflexivity|].
  intros H; apply andb_true_iff in H as [-> H]; auto.
Qed.

Lemma dropwhile_app (p : char -> bool) (s t : str) :
  dropwhile p s <> [] -> dropwhile p (s ++ t) = dropwhile p s ++ t.
Proof.
  induction s as [|c s IH]; simpl; [congruence|].
  destruct (p c); auto.
Qed.

Lemma forallb_rev (p : char -> bool) (s : str) :
  forallb p (rev s) = forallb p s.
Proof.
  induction s as [|c s IH]; simpl; [reflexivity|].
  rewrite forallb_app, IH; simpl. rewrite andb_true_r, andb_comm; reflexivity.
Qed.

Lemma forallb_dropwhile (p : char -> bool) (s : str) :
  forallb p (dropwhile p s) = forallb p s.
Proof.
  induction s as [|c s IH]; simpl; [reflexivity|].
  destruct (p c) eqn:E; simpl; [exact IH | rewrite E; reflexivity].
Qed.

Lemma rev_nil_iff (s : str) : rev s = [] <-> s = [].
Proof.
  split; intros H; [|subst; reflexivity].
  rewrite <- (rev_involutive s), H; reflexivity.
Qed.

Lemma rstrip_nil (s : str) : rstrip s = [] <-> is_blank s = true.
Proof.
  unfold rstrip, is_blank.
  rewrite rev_nil_iff, dropwhile_nil, forallb_rev; tauto.
Qed.

(** [line.strip() == ''] holds exactly for the whitespace-only lines. *)
Lemma strip_nil (s : str) : strip s = [] <-> is_blank s = true.
Proof.
  unfold strip. rewrite rstrip_nil. unfold is_blank, lstrip.
  rewrite forallb_dropwhile; tauto.
Qed.

Lemma lstrip_pad (ws s : str) : is_blank ws = true -> lstrip (ws ++ s) = lstrip s.
Proof. apply dropwhile_all. Qed.

Lemma rstrip_pad (s ws : str) : is_blank ws = true -> rstrip (s ++ ws) = rstrip s.
Proof.
  intros H. unfold rstrip. rewrite rev_app_distr, dropwhile_all; [reflexivity|].
  rewrite forallb_rev; exact H.
Qed.

(** Stripping removes the whitespace around a string that has none at its
    own ends. *)
Lemma strip_pad (ws1 core ws2 : str) :
  is_blank ws1 = true -> is_blank ws2 = true -> strip core = core ->
  strip (ws1 ++ core ++ ws2) = core.
Proof.
  intros H1 H2 Hc. unfold strip. rewrite lstrip_pad by exact H1.
  destruct (is_blank core) eqn:B.
  - assert (core = []) as -> by (rewrite <- Hc; apply strip_nil; exact B).
    simpl. apply rstrip_nil. unfold is_blank, lstrip.
    rewrite forallb_dropwhile; exact H2.
  - unfold lstrip. rewrite dropwhile_app.
    + rewrite rstrip_pad by exact H2. exact Hc.
    + intros E. apply dropwhile_nil in E. unfold is_blank in B. congruence.
Qed.

Lemma is_blank_app (a b : str) : is_blank (a ++ b) = is_blank a && is_blank b.
Proof. apply forallb_app. Qed.

Lemma is_blank_count (c : char) (ws : str) :
  isspace c = false -> is_blank ws = true -> count c ws = 0%nat.
Proof.
  intros Hc. unfold count, is_blank.
  induction ws as [|x ws IH]; simpl; [reflexivity|].
  intros H; apply andb_true_iff in H as [Hx H].
  destruct (N.eqb_spec x c) as [->|_]; [congruence | auto].
Qed.

(** ** Branches *)

Lemma branch_blank (line : str) : branch_of line = Blank <-> is_blank line = true.
Proof.
  rewrite <- strip_nil. unfold branch_of. rewrite str_eqb_nil.
  destruct (strip line); simpl.
  - tauto.
  - destruct (startswith hash line), (startswith lbracket line);
      split; discriminate.
Qed.

Lemma startswith_not_blank (c : char) (line : str) :
  isspace c = false -> startswith c line = true -> is_blank line = false.
Proof.
  destruct line as [|x line]; simpl; [discriminate|].
  intros Hc E; apply N.eqb_eq in E; subst x. rewrite Hc; reflexivity.
Qed.

Lemma branch_of_cases (line : str) :
  branch_of line =
    if is_blank line then Blank
    else if startswith hash line then Comment
    else if startswith lbracket line then Header
    else Setting.
Proof.
  destruct (is_blank line) eqn:B.
  - apply branch_blank; exact B.
  - unfold branch_of. rewrite str_eqb_nil.
    destruct (strip line) eqn:E; [|reflexivity].
    apply strip_nil in E; congruence.
Qed.

(** The loop body, branch by branch. *)
Lemma step_branch (st : state) (line : str) :
  step st line =
    match branch_of line with
    | Blank | Comment => Ok st
    | Header => Ok (header st line)
    | Setting => setting st line
    end.
Proof.
  unfold step, branch_of.
  destruct (negb (str_eqb (strip line) [])); [|reflexivity].
  destruct (startswith hash line); [reflexivity|].
  destruct (startswith lbracket line); reflexivity.
Qed.

Lemma skipped_branch (line : str) :
  skipped line = true <-> branch_of line = Blank \/ branch_of line = Comment.
Proof.
  unfold skipped. rewrite branch_of_cases.
  destruct (is_blank line), (startswith hash line), (startswith lbracket line);
    simpl; (split; [intros H | intros [H|H]]); try discriminate; auto.
Qed.

Lemma step_skipped (st : state) (line : str) :
  skipped line = true -> step st line = Ok st.
Proof.
  intros H; apply skipped_branch in H. rewrite step_branch.
  destruct H as [-> | ->]; reflexivity.
Qed.

Lemma setting_branch (line : str) :
  is_blank line = false -> startswith hash line = false ->
  startswith lbracket line = false -> branch_of line = Setting.
Proof. intros B H L. rewrite branch_of_cases, B, H, L; reflexivity. Qed.

Lemma indented_branch (ws rest : str) :
  ws <> [] -> is_blank ws = true -> is_blank rest = false ->
  branch_of (ws ++ rest) = Setting.
Proof.
  intros Hne Hws Hrest. apply setting_branch.
  - rewrite is_blank_app, Hrest, andb_false_r; reflexivity.
  - destruct ws as [|c ws]; [congruence|]. simpl in *.
    apply andb_true_iff in Hws as [Hc _].
    destruct (N.eqb_spec c hash) as [->|_]; [|reflexivity].
    rewrite isspace_hash in Hc; discriminate.
  - destruct ws as [|c ws]; [congruence|]. simpl in *.
    apply andb_true_iff in Hws as [Hc _].
    destruct (N.eqb_spec c lbracket) as [->|_]; [|reflexivity].
    rewrite isspace_lbracket in Hc; discriminate.
Qed.

(** ** Splitting and joining *)

Lemma count_cons (c x : char) (s : str) :
  count c (x :: s) = if x =? c then S (count c s) else count c s.
Proof. unfold count; simpl. destruct (x =? c); reflexivity. Qed.

Lemma count_app (c : char) (a b : str) :
  count c (a ++ b) = (count c a + count c b)%nat.
Proof. unfold count. rewrite filter_app, length_app; reflexivity. Qed.

Lemma split_not_nil (sep : char) (s : str) : split sep s <> [].
Proof.
  destruct s as [|c s]; simpl; [discriminate|].
  destruct (c =? sep); [discriminate|].
  destruct (split sep s); discriminate.
Qed.

(** One piece more than there are separators. *)
Lemma split_length (sep : char) (s : str) :
  List.length (split sep s) = S (count sep s).
Proof.
  induction s as [|c s IH]; [reflexivity|].
  rewrite count_cons. simpl. destruct (c =? sep); simpl.
  - rewrite IH; reflexivity.
  - destruct (split sep s) eqn:E; [destruct (split_not_nil _ _ E) | exact IH].
Qed.

Lemma split_no_sep (sep : char) (s : str) :
  count sep s = 0%nat -> split sep s = [s].
Proof.
  induction s as [|c s IH]; [reflexivity|].
  rewrite count_cons. simpl. destruct (c =? sep); [discriminate|].
  intros H; rewrite (IH H); reflexivity.
Qed.

Lemma split_app (sep : char) (a b : str) :
  count sep a = 0%nat -> split sep (a ++ sep :: b) = a :: split sep b.
Proof.
  induction a as [|c a IH]; simpl.
  - rewrite N.eqb_refl; reflexivity.
  - rewrite count_cons. destruct (c =? sep); [discriminate|].
    intros H; rewrite (IH H); reflexivity.
Qed.

Lemma split_pieces (sep : char) (s p : str) :
  In p (split sep s) -> count sep p = 0%nat.
Proof.
  revert p; induction s as [|c s IH]; simpl; intros p.
  - intros [<-|[]]; reflexivity.
  - destruct (c =? sep) eqn:E.
    + intros [<-|H]; [reflexivity | auto].
    + destruct (split sep s) as [|q qs] eqn:S.
      * destruct (split_not_nil _ _ S).
      * intros [<-|H].
        -- rewrite count_cons, E. apply IH; left; reflexivity.
        -- apply IH; right; exact H.
Qed.

Lemma join_cons (sep : char) (p q : str) (ps : list str) :
  join sep (p :: q :: ps) = p ++ sep :: join sep (q :: ps).
Proof. reflexivity. Qed.

(** Splitting what was joined gives the pieces back, when no piece holds
    the separator. *)
Lemma split_join (sep : char) (ps : list str) :
  ps <> [] -> (forall p, In p ps -> count sep p = 0%nat) ->
  split sep (join sep ps) = ps.
Proof.
  induction ps as [|p ps IH]; [congruence|].
  intros _ H. destruct ps as [|q ps].
  - simpl. apply split_no_sep, H; left; reflexivity.
  - rewrite join_cons, split_app by (apply H; left; reflexivity).
    f_equal. apply IH; [discriminate|].
    intros p' Hp'; apply H; right; exact Hp'.
Qed.

(** A line with exactly one separator splits into the two sides of it. *)
Lemma split_one (sep : char) (s : str) :
  count sep s = 1%nat ->
  exists k v, split sep s = [k; v] /\ s = k ++ sep :: v.
Proof.
  induction s as [|c s IH]; [discriminate|].
  rewrite count_cons. simpl. destruct (N.eqb_spec c sep) as [->|_].
  - intros H; injection H as H. exists [], s.
    rewrite (split_no_sep _ _ H); split; reflexivity.
  - intros H. destruct (IH H) as (k & v & -> & ->).
    exists (c :: k), v; split; reflexivity.
Qed.

(** ** Dictionaries *)

Lemma getitem_setitem_same {V : Type} (k : str) (v : V) (d : dict V) :
  getitem k (setitem k v d) = Some v.
Proof.
  induction d as [|[k' v'] d IH]; simpl.
  - rewrite str_eqb_refl; reflexivity.
  - destruct (str_eqb k' k) eqn:E; simpl; rewrite E; auto.
Qed.

Lemma getitem_setitem_other {V : Type} (k k' : str) (v : V) (d : dict V) :
  k <> k' -> getitem k' (setitem k v d) = getitem k' d.
Proof.
  intros N. induction d as [|[k0 v0] d IH]; simpl.
  - destruct (str_eqb k k') eqn:E; [apply str_eqb_eq in E; congruence | reflexivity].
  - destruct (str_eqb k0 k) eqn:E; simpl.
    + apply str_eqb_eq in E; subst k0.
      destruct (str_eqb k k') eqn:E'; [apply str_eqb_eq in E'; congruence | reflexivity].
    + rewrite IH; reflexivity.
Qed.

(** Assigning to a key that is present keeps the keys and their order. *)
Lemma keys_setitem_present {V : Type} (k : str) (v v0 : V) (d : dict V) :
  getitem k d = Some v0 -> map fst (setitem k v d) = map fst d.
Proof.
  induction d as [|[k' v'] d IH]; simpl; [discriminate|].
  destruct (str_eqb k' k); simpl; [reflexivity|].
  intros H; rewrite (IH H); reflexivity.
Qed.

(** ** The loop *)

Lemma run_app (st : state) (a b : list str) :
  run st (a ++ b) = (st' <- run st a ;; run st' b).
Proof.
  revert st; induction a as [|l a IH]; intros st; simpl; [reflexivity|].
  destruct (step st l); simpl; auto.
Qed.

Lemma run_skipped (st : state) (lines : list str) :
  forallb skipped lines = true -> run st lines = Ok st.
Proof.
  induction lines as [|l lines IH]; simpl; [reflexivity|].
  intros H; apply andb_true_iff in H as [Hl H].
  rewrite (step_skipped st l Hl); simpl; auto.
Qed.

(** The unpacking of the split line. *)
Lemma setting_unpack_error (st : state) (line : str) :
  count equals line <> 1%nat ->
  setting st line = Raise (ValueError (S (count equals line))).
Proof.
  intros H. unfold setting. rewrite <- split_length.
  destruct (split equals line) as [|k [|v [|w ps]]] eqn:E; try reflexivity.
  exfalso; apply H.
  pose proof (split_length equals line) as L; rewrite E in L; simpl in L.
  congruence.
Qed.

Lemma setting_pair (st : state) (k v : str) :
  count equals k = 0%nat -> count equals v = 0%nat ->
  setting st (k ++ equals :: v) =
    match current_repo st with
    | None => Raise (KeyError None)
    | Some r =>
        match getitem r (test_dict st) with
        | None => Raise (KeyError (Some r))
        | Some inner =>
            Ok (mkState
                  (setitem r (setitem (strip k) (strip v) inner) (test_dict st))
                  (current_repo st))
        end
    end.
Proof.
  intros Hk Hv. unfold setting.
  rewrite (split_app _ _ _ Hk), (split_no_sep _ _ Hv); reflexivity.
Qed.

Lemma init_present : open_section_present init.
Proof. intros r H; discriminate. Qed.

Lemma step_present (st st' : state) (line : str) :
  open_section_present st -> step st line = Ok st' -> open_section_present st'.
Proof.
  intros I. rewrite step_branch. destruct (branch_of line).
  - intros E; injection E as <-; exact I.
  - intros E; injection E as <-; exact I.
  - intros E; injection E as <-. intros r Hr; simpl in *.
    injection Hr as <-. eexists; apply getitem_setitem_same.
  - unfold setting. destruct (split equals line) as [|k [|v [|w ps]]]; try discriminate.
    destruct (current_repo st) as [r|] eqn:C; [|discriminate].
    destruct (getitem r (test_dict st)) as [inner|]; [|discriminate].
    intros E; injection E as <-. intros r' Hr'; simpl in *.
    injection Hr' as <-.
    eexists; apply getitem_setitem_same.
Qed.

Lemma run_present (st st' : state) (lines : list str) :
  open_section_present st -> run st lines = Ok st' -> open_section_present st'.
Proof.
  revert st; induction lines as [|l lines IH]; intros st I; simpl.
  - intros E; injection E as <-; exact I.
  - destruct (step st l) as [st1|e] eqn:S; simpl; [|discriminate].
    apply IH. eapply step_present; eauto.
Qed.

Lemma parse_lines_raise (lines : list str) (e : exn) :
  run init lines = Raise e -> parse_lines lines = Raise e.
Proof. unfold parse_lines; intros ->; reflexivity. Qed.

Lemma run_module_reads (fs : filesystem) (path text : str) :
  exists_ fs path = true -> read_text fs path = Ok text ->
  run_module fs path false =
    match parse text with
    | Ok d => exit_json (mkResult true false (View d))
    | Raise e => uncaught e
    end.
Proof.
  intros E R. unfold run_module, validate_path. rewrite E, R; reflexivity.
Qed.

(** An exception of the loop leaves the module without any result. *)
Lemma run_module_raises (fs : filesystem) (path text : str) (e : exn) :
  exists_ fs path = true -> read_text fs path = Ok text ->
  parse text = Raise e -> run_module fs path false = uncaught e.
Proof.
  intros E R P. rewrite (run_module_reads _ _ _ E R), P; reflexivity.
Qed.

(** A value with [=] inside gives the unpacking more than two pieces. *)
Lemma setting_embedded_equals (st : state) (key value : str) :
  count equals key = 0%nat -> (1 <= count equals value)%nat ->
  setting st (key ++ equals :: value) =
    Raise (ValueError (S (S (count equals value)))).
Proof.
  intros Hk Hv.
  assert (E : count equals (key ++ equals :: value) = S (count equals value)).
  { rewrite count_app, count_cons, N.eqb_refl, Hk; reflexivity. }
  rewrite setting_unpack_error; rewrite E; [reflexivity | lia].
Qed.

(** ** The claims *)

(** C1 (the code departs from it): a setting line whose value holds an
    [=] is not split on the first [=] only.  [line.split("=")] cuts at every
    [=], so [baseurl=http://x/y?a=b] gives three pieces, the assignment to
    [k, v] raises [ValueError] and the whole parse is lost: no value
    [http://x/y?a=b] is stored. *)
Theorem embedded_equals_raises :
  split equals (lit "baseurl=http://x/y?a=b")
    = [lit "baseurl"; lit "http://x/y?a"; lit "b"]
  /\ parse_lines [lit "[main]"; lit "baseurl=http://x/y?a=b"]
    = Raise (ValueError 3).
Proof. split; vm_compute; reflexivity. Qed.

(** C2, as stated, fails: after [[a]] and [x=1] the section [a] holds
    [x]; a second header [[a]] leaves it empty. *)
Lemma duplicate_header_counterexample :
  parse_lines [lit "[a]"; lit "x=1"]
    = Ok [(lit "a", [(lit "x", lit "1")])]
  /\ parse_lines [lit "[a]"; lit "x=1"; lit "[a]"]
    = Ok [(lit "a", [])].
Proof. split; vm_compute; reflexivity. Qed.

(** C2, amended: every header line makes its name the current section
    and assigns an empty mapping to that name, whether or not the name was
    present; a name that was present keeps its place among the sections,
    and the mappings of all other names are unchanged. *)
Theorem header_resets_section (st : state) (line : str) :
  branch_of line = Header ->
  step st line = Ok (header st line)
  /\ current_repo (header st line) = Some (section_name line)
  /\ getitem (section_name line) (test_dict (header st line)) = Some []
  /\ (forall d, getitem (section_name line) (test_dict st) = Some d ->
        map fst (test_dict (header st line)) = map fst (test_dict st))
  /\ (forall other, other <> section_name line ->
        getitem other (test_dict (header st line))
          = getitem other (test_dict st)).
Proof.
  intros B. rewrite step_branch, B. repeat split.
  - apply getitem_setitem_same.
  - intros d G. simpl. eapply keys_setitem_present; exact G.
  - intros other N. apply getitem_setitem_other. congruence.
Qed.

Lemma header_resets_section_witness :
  step (mkState [(lit "a", [(lit "x", lit "1")])] (Some (lit "a"))) (lit "[a]")
    = Ok (header (mkState [(lit "a", [(lit "x", lit "1")])] (Some (lit "a")))
                 (lit "[a]"))
  /\ getitem (section_name (lit "[a]"))
       (test_dict (header (mkState [(lit "a", [(lit "x", lit "1")])]
                                   (Some (lit "a"))) (lit "[a]")))
     = Some [].
Proof.
  pose proof (header_resets_section
                (mkState [(lit "a", [(lit "x", lit "1")])] (Some (lit "a")))
                (lit "[a]") eq_refl) as (H1 & _ & H3 & _ & _).
  split; [exact H1 | exact H3].
Defined.

(** C3, as stated, fails: [noequals] is a non-blank line that is neither
    comment nor header and has no [=], yet the input below fails at its
    first line, which is a setting without section, with [KeyError] and not
    with the [ValueError] of a line without [=]. *)
Lemma malformed_line_counterexample :
  is_blank (lit "noequals") = false
  /\ startswith hash (lit "noequals") = false
  /\ startswith lbracket (lit "noequals") = false
  /\ count equals (lit "noequals") = 0%nat
  /\ parse_lines [lit "foo=bar"; lit "noequals"] = Raise (KeyError None).
Proof. repeat split; vm_compute; reflexivity. Qed.

(** C3, amended: an input that contains a non-blank line that is neither
    comment nor header and has no [=] always fails, and no dictionary is
    returned; when the lines before it raise nothing, the failure is the
    [ValueError] of unpacking one piece ("not enough values to unpack"),
    raised at that line. *)
Theorem malformed_line_fails (pre post : list str) (line : str) :
  is_blank line = false -> startswith hash line = false ->
  startswith lbracket line = false -> count equals line = 0%nat ->
  (exists e, parse_lines (pre ++ line :: post) = Raise e)
  /\ (forall st, run init pre = Ok st ->
        step st line = Raise (ValueError 1)
        /\ parse_lines (pre ++ line :: post) = Raise (ValueError 1)).
Proof.
  intros B H L C.
  assert (S : forall st, step st line = Raise (ValueError 1)).
  { intros st. rewrite step_branch, (setting_branch _ B H L).
    rewrite setting_unpack_error by (rewrite C; discriminate).
    rewrite C; reflexivity. }
  assert (R : forall st, run init pre = Ok st ->
                parse_lines (pre ++ line :: post) = Raise (ValueError 1)).
  { intros st E. apply parse_lines_raise. rewrite run_app, E; simpl.
    rewrite S; reflexivity. }
  split.
  - destruct (run init pre) as [st|e] eqn:E.
    + exists (ValueError 1). eapply R; reflexivity.
    + exists e. apply parse_lines_raise. rewrite run_app, E; reflexivity.
  - intros st E; split; [apply S | eapply R; exact E].
Qed.

Lemma malformed_line_fails_witness :
  parse_lines ([lit "[main]"] ++ lit "noequalssign" :: []) = Raise (ValueError 1).
Proof.
  refine (proj2 (proj2 (malformed_line_fails [lit "[main]"] [] (lit "noequalssign")
                          eq_refl eq_refl eq_refl eq_refl) _ eq_refl)).
Defined.

(** C4, as stated, fails: [noequals] is the first line that is neither
    blank, comment nor header, and no header precedes it; the parse fails,
    but with the [ValueError] of the unpacking, which comes before the
    subscription by [current_repo] that raises [KeyError]. *)
Lemma orphan_setting_counterexample :
  is_blank (lit "noequals") = false
  /\ startswith hash (lit "noequals") = false
  /\ startswith lbracket (lit "noequals") = false
  /\ parse_lines [lit "noequals"] = Raise (ValueError 1)
  /\ parse_lines [lit "foo=bar"] = Raise (KeyError None).
Proof. repeat split; vm_compute; reflexivity. Qed.

(** C4, amended: when the first line that is neither blank nor comment is
    not a header, the parse fails and returns no dictionary; the failure is
    [KeyError None], the setting without section, when that line holds
    exactly one [=], as [foo=bar] does, and the [ValueError] of unpacking
    one piece when it holds no [=], because the line is split before the
    current section is looked up.  Which exception a line with two or more
    [=] gives is not stated here. *)
Theorem orphan_setting_fails (pre post : list str) (line : str) :
  forallb skipped pre = true ->
  is_blank line = false -> startswith hash line = false ->
  startswith lbracket line = false ->
  (exists e, parse_lines (pre ++ line :: post) = Raise e)
  /\ (count equals line = 1%nat ->
        parse_lines (pre ++ line :: post) = Raise (KeyError None))
  /\ (count equals line = 0%nat ->
        parse_lines (pre ++ line :: post) = Raise (ValueError 1)).
Proof.
  intros P B H L.
  assert (R : forall e, setting init line = Raise e ->
                parse_lines (pre ++ line :: post) = Raise e).
  { intros e E. apply parse_lines_raise.
    rewrite run_app, (run_skipped _ _ P); simpl.
    rewrite step_branch, (setting_branch _ B H L), E; reflexivity. }
  assert (K : count equals line = 1%nat -> setting init line = Raise (KeyError None)).
  { intros C. destruct (split_one _ _ C) as (k & v & E & _).
    unfold setting; rewrite E; reflexivity. }
  split; [|split].
  - destruct (Nat.eq_dec (count equals line) 1) as [C|C].
    + eexists; apply R, K, C.
    + eexists; apply R, setting_unpack_error, C.
  - intros C; apply R, K, C.
  - intros C. apply R. rewrite setting_unpack_error by (rewrite C; discriminate).
    rewrite C; reflexivity.
Qed.

Lemma orphan_setting_fails_witness :
  parse_lines ([lit "# repos"; []] ++ lit "foo=bar" :: [lit "[main]"])
    = Raise (KeyError None).
Proof.
  refine (proj1 (proj2 (orphan_setting_fails [lit "# repos"; []] [lit "[main]"]
                          (lit "foo=bar") eq_refl eq_refl eq_refl eq_refl))
                eq_refl).
Defined.

(** C5, as stated, fails: for a path that exists and cannot be read, the
    module does not report the path as missing through [fail_json]; the
    read raises and the exception is left uncaught. *)
Lemma unreadable_path_counterexample :
  exists_ unreadable_fs (lit "/etc/yum.repos.d/redhat.repo") = true
  /\ read_text unreadable_fs (lit "/etc/yum.repos.d/redhat.repo")
     = Raise (OSError 13)
  /\ run_module unreadable_fs (lit "/etc/yum.repos.d/redhat.repo") false
     = uncaught (OSError 13).
Proof. repeat split. Qed.

(** C5, amended: for every path that does not exist, the module fails
    through [fail_json] with the message "The path does not exist", stops
    there, and the result holds the initial placeholder and no parsed
    dictionary; for a path that exists and cannot be read, the module stops
    with the exception of the read, also without a dictionary. *)
Theorem missing_path_fails (fs : filesystem) (path : str) :
  (exists_ fs path = false ->
     run_module fs path false
       = fail_json (lit "The path does not exist")
                   (mkResult false false Placeholder))
  /\ (forall e, exists_ fs path = true -> read_text fs path = Raise e ->
        run_module fs path false = uncaught e).
Proof.
  split.
  - intros E. unfold run_module, validate_path. rewrite E; reflexivity.
  - intros e E R. unfold run_module, validate_path. rewrite E, R; reflexivity.
Qed.

Lemma missing_path_fails_witness :
  run_module empty_fs (lit "/etc/yum.repos.d/redhat.repo") false
    = fail_json (lit "The path does not exist")
                (mkResult false false Placeholder).
Proof.
  exact (proj1 (missing_path_fails empty_fs (lit "/etc/yum.repos.d/redhat.repo"))
               eq_refl).
Defined.

(** C6: a line takes the comment branch exactly when its first character
    is [#]; the branch leaves the state as it is; and a line with
    whitespace before the [#] is not a comment: it fails the header test too
    and is handled as a setting line. *)
Theorem comment_iff_leading_hash (line : str) :
  (branch_of line = Comment <-> exists rest, line = hash :: rest)
  /\ (forall st, branch_of line = Comment -> step st line = Ok st)
  /\ (forall ws rest, ws <> [] -> is_blank ws = true ->
        line = ws ++ hash :: rest ->
        branch_of line = Setting
        /\ forall st, step st line = setting st line).
Proof.
  split; [|split].
  - split.
    + rewrite branch_of_cases.
      destruct (is_blank line); [discriminate|].
      destruct line as [|c rest]; [discriminate|]. simpl.
      destruct (N.eqb_spec c hash) as [->|_].
      * intros _; exists rest; reflexivity.
      * destruct (c =? lbracket); discriminate.
    + intros [rest ->]. rewrite branch_of_cases. reflexivity.
  - intros st B. rewrite step_branch, B; reflexivity.
  - intros ws rest Hne Hws ->.
    assert (B : branch_of (ws ++ hash :: rest) = Setting).
    { apply indented_branch; auto. }
    split; [exact B|]. intros st. rewrite step_branch, B; reflexivity.
Qed.

Lemma comment_iff_leading_hash_witness :
  branch_of (lit "# a comment") = Comment
  /\ branch_of (lit "  # a comment") = Setting
  /\ step init (lit "  # a comment") = setting init (lit "  # a comment").
Proof.
  split; [|split].
  - apply (proj2 (proj1 (comment_iff_leading_hash (lit "# a comment")))).
    exists (lit " a comment"); reflexivity.
  - refine (proj1 (proj2 (proj2 (comment_iff_leading_hash (lit "  # a comment")))
                     (lit "  ") (lit " a comment") _ eq_refl eq_refl)).
    discriminate.
  - refine (proj2 (proj2 (proj2 (comment_iff_leading_hash (lit "  # a comment")))
                     (lit "  ") (lit " a comment") _ eq_refl eq_refl) init).
    discriminate.
Defined.

(** C7: a setting line [ws1 key ws2 = ws3 value ws4], where the [ws] are
    whitespace, [key] and [value] have none at their ends and hold no [=],
    met while a section is open, stores [key] with the value [value] in
    that section: what is stored is the stripped left side and the stripped
    right side of the [=]. *)
Theorem setting_line_trimmed (pre : list str) (st : state)
    (r ws1 key ws2 ws3 value ws4 : str) :
  run init pre = Ok st -> current_repo st = Some r ->
  is_blank ws1 = true -> is_blank ws2 = true ->
  is_blank ws3 = true -> is_blank ws4 = true ->
  strip key = key -> strip value = value ->
  count equals key = 0%nat -> count equals value = 0%nat ->
  branch_of (padded_setting ws1 key ws2 ws3 value ws4) = Setting ->
  strip (ws1 ++ key ++ ws2) = key
  /\ strip (ws3 ++ value ++ ws4) = value
  /\ exists st' inner,
       step st (padded_setting ws1 key ws2 ws3 value ws4) = Ok st'
       /\ current_repo st' = Some r
       /\ getitem r (test_dict st') = Some inner
       /\ getitem key inner = Some value.
Proof.
  intros Hrun Hr W1 W2 W3 W4 Sk Sv Ck Cv B.
  pose proof (strip_pad ws1 key ws2 W1 W2 Sk) as Ek.
  pose proof (strip_pad ws3 value ws4 W3 W4 Sv) as Ev.
  split; [exact Ek | split; [exact Ev|]].
  destruct (run_present _ _ _ init_present Hrun r Hr) as [inner0 Hin].
  rewrite step_branch, B. unfold padded_setting. rewrite setting_pair.
  - rewrite Hr, Hin, Ek, Ev. do 2 eexists. split; [reflexivity|]. simpl.
    split; [reflexivity|]. split; apply getitem_setitem_same.
  - rewrite !count_app, Ck,
      (is_blank_count _ _ isspace_equals W1), (is_blank_count _ _ isspace_equals W2).
    reflexivity.
  - rewrite !count_app, Cv,
      (is_blank_count _ _ isspace_equals W3), (is_blank_count _ _ isspace_equals W4).
    reflexivity.
Qed.

Lemma setting_line_trimmed_witness :
  exists st' inner,
    step (mkState [(lit "main", [])] (Some (lit "main")))
         (padded_setting (lit "  ") (lit "gpgcheck") (lit " ")
                         (lit " ") (lit "1") (lit "  ")) = Ok st'
    /\ current_repo st' = Some (lit "main")
    /\ getitem (lit "main") (test_dict st') = Some inner
    /\ getitem (lit "gpgcheck") inner = Some (lit "1").
Proof.
  exact (proj2 (proj2 (setting_line_trimmed
                  [lit "[main]"] (mkState [(lit "main", [])] (Some (lit "main")))
                  (lit "main") (lit "  ") (lit "gpgcheck") (lit " ")
                  (lit " ") (lit "1") (lit "  ")
                  eq_refl eq_refl eq_refl eq_refl eq_refl eq_refl
                  eq_refl eq_refl eq_refl eq_refl eq_refl))).
Defined.

Lemma run_without_skipped (st : state) (lines : list str) :
  run st (without_skipped lines) = run st lines.
Proof.
  revert st; induction lines as [|l lines IH]; intros st; [reflexivity|].
  unfold without_skipped in *. simpl. destruct (skipped l) eqn:S; simpl.
  - rewrite (step_skipped st l S); simpl. apply IH.
  - destruct (step st l); simpl; [apply IH | reflexivity].
Qed.

(** C8: blank lines (empty or whitespace only) and comment lines leave
    the state of the loop as it is, and removing all of them from an input
    changes nothing in the result, be it a dictionary or an exception: for
    the loop from any state, for the parse of a list of lines, and for the
    parse of a text whose skipped lines are cut out. *)
Theorem skipped_lines_do_not_matter (st : state) (lines : list str) (text : str) :
  (forall line, skipped line = true -> step st line = Ok st)
  /\ run st (without_skipped lines) = run st lines
  /\ parse_lines (without_skipped lines) = parse_lines lines
  /\ parse (join nl (without_skipped (split nl text))) = parse text.
Proof.
  split; [|split; [|split]].
  - intros line S; apply step_skipped, S.
  - apply run_without_skipped.
  - unfold parse_lines. rewrite run_without_skipped; reflexivity.
  - unfold parse, parse_lines.
    destruct (without_skipped (split nl text)) as [|l ls] eqn:E.
    + rewrite <- (run_without_skipped init (split nl text)), E; reflexivity.
    + rewrite split_join.
      * rewrite <- E, run_without_skipped; reflexivity.
      * discriminate.
      * intros p Hp. apply (split_pieces nl text).
        rewrite <- E in Hp. unfold without_skipped in Hp.
        apply filter_In in Hp as [Hp _]; exact Hp.
Qed.

Lemma skipped_lines_do_not_matter_witness :
  step init (lit "# a comment") = Ok init
  /\ parse_lines (without_skipped sample_lines) = parse_lines sample_lines.
Proof.
  split.
  - exact (proj1 (skipped_lines_do_not_matter init sample_lines [])
                 (lit "# a comment") eq_refl).
  - exact (proj1 (proj2 (proj2
             (skipped_lines_do_not_matter init sample_lines [])))).
Defined.

Lemma setting_keeps_sections (st st' : state) (line : str) :
  setting st line = Ok st' ->
  current_repo st' = current_repo st
  /\ map fst (test_dict st') = map fst (test_dict st).
Proof.
  unfold setting.
  destruct (split equals line) as [|k [|v [|w ps]]]; try discriminate.
  destruct (current_repo st) as [r|] eqn:C; [|discriminate].
  destruct (getitem r (test_dict st)) as [inner|] eqn:G; [|discriminate].
  intros E; injection E as <-; simpl. split; [reflexivity|].
  eapply keys_setitem_present; exact G.
Qed.

Lemma indented_strip (ws key : str) :
  is_blank ws = true ->
  strip (ws ++ lbracket :: key) = rstrip (lbracket :: key).
Proof.
  intros Hws. unfold strip. rewrite (lstrip_pad _ _ Hws). reflexivity.
Qed.

(** C10: a line that starts with whitespace and then has [[] is not a
    header.  It takes the setting branch and is split on [=]: without [=]
    it raises the [ValueError] of the unpacking; with one [=] the two sides
    are the pieces of the split and, in an open section, the stripped left
    side, which begins with the bracket, is stored as a key with the
    stripped right side as its value.  Whenever the line succeeds, the
    current section and the section names of the dictionary are as they
    were: no section is opened. *)
Theorem indented_header_is_setting (st : state) (ws rest : str) :
  ws <> [] -> is_blank ws = true ->
  branch_of (ws ++ lbracket :: rest) = Setting
  /\ step st (ws ++ lbracket :: rest) = setting st (ws ++ lbracket :: rest)
  /\ (count equals rest = 0%nat ->
        step st (ws ++ lbracket :: rest) = Raise (ValueError 1))
  /\ (forall st', step st (ws ++ lbracket :: rest) = Ok st' ->
        current_repo st' = current_repo st
        /\ map fst (test_dict st') = map fst (test_dict st))
  /\ (forall key value r inner,
        rest = key ++ equals :: value ->
        count equals key = 0%nat -> count equals value = 0%nat ->
        current_repo st = Some r -> getitem r (test_dict st) = Some inner ->
        split equals (ws ++ lbracket :: rest) = [ws ++ lbracket :: key; value]
        /\ strip (ws ++ lbracket :: key) = rstrip (lbracket :: key)
        /\ step st (ws ++ lbracket :: rest)
           = Ok (mkState
                   (setitem r
                      (setitem (rstrip (lbracket :: key)) (strip value) inner)
                      (test_dict st))
                   (Some r))
        /\ forall st', step st (ws ++ lbracket :: rest) = Ok st' ->
             exists inner',
               getitem r (test_dict st') = Some inner'
               /\ getitem (rstrip (lbracket :: key)) inner' = Some (strip value)).
Proof.
  intros Hne Hws.
  assert (B : branch_of (ws ++ lbracket :: rest) = Setting)
    by (apply indented_branch; auto).
  assert (S : step st (ws ++ lbracket :: rest) = setting st (ws ++ lbracket :: rest))
    by (rewrite step_branch, B; reflexivity).
  split; [exact B | split; [exact S | split; [|split]]].
  - intros C. rewrite S.
    assert (E : count equals (ws ++ lbracket :: rest) = 0%nat).
    { rewrite count_app, count_cons, C,
        (is_blank_count _ _ isspace_equals Hws); reflexivity. }
    rewrite setting_unpack_error; rewrite E; [reflexivity | discriminate].
  - intros st'. rewrite S. apply setting_keeps_sections.
  - intros key value r inner -> Ck Cv C G.
    assert (Cl : count equals (ws ++ lbracket :: key) = 0%nat).
    { rewrite count_app, count_cons, Ck,
        (is_blank_count _ _ isspace_equals Hws); reflexivity. }
    assert (A : ws ++ lbracket :: key ++ equals :: value
                = (ws ++ lbracket :: key) ++ equals :: value).
    { rewrite <- app_assoc; reflexivity. }
    assert (T : step st (ws ++ lbracket :: key ++ equals :: value)
                = Ok (mkState
                        (setitem r
                           (setitem (rstrip (lbracket :: key)) (strip value) inner)
                           (test_dict st))
                        (Some r))).
    { rewrite S, A, (setting_pair st _ _ Cl Cv), C, G,
        (indented_strip _ _ Hws). reflexivity. }
    split; [|split; [|split]].
    + rewrite A, (split_app _ _ _ Cl), (split_no_sep _ _ Cv); reflexivity.
    + apply indented_strip, Hws.
    + exact T.
    + intros st' E. rewrite T in E. injection E as <-. simpl.
      eexists. split; apply getitem_setitem_same.
Qed.

Lemma indented_header_is_setting_witness :
  (branch_of (lit "  " ++ lbracket :: lit "main]") = Setting
   /\ step init (lit "  " ++ lbracket :: lit "main]") = Raise (ValueError 1))
  /\ (split equals (lit " " ++ lbracket :: lit "main] = 1")
        = [lit " " ++ lbracket :: lit "main] "; lit " 1"]
      /\ step (mkState [(lit "a", [])] (Some (lit "a")))
              (lit " " ++ lbracket :: lit "main] = 1")
         = Ok (mkState
                 [(lit "a", [(lit "[main]", lit "1")])]
                 (Some (lit "a")))).
Proof.
  assert (N2 : lit "  " <> []) by discriminate.
  assert (N1 : lit " " <> []) by discriminate.
  split.
  - pose proof (indented_header_is_setting init (lit "  ") (lit "main]") N2 eq_refl)
      as (H1 & _ & H3 & _).
    split; [exact H1 | exact (H3 eq_refl)].
  - pose proof (indented_header_is_setting
                  (mkState [(lit "a", [])] (Some (lit "a")))
                  (lit " ") (lit "main] = 1") N1 eq_refl)
      as (_ & _ & _ & _ & H5).
    destruct (H5 (lit "main] ") (lit " 1") (lit "a") []
                 eq_refl eq_refl eq_refl eq_refl eq_refl) as (Hs & _ & Ht & _).
    split; [exact Hs | exact Ht].
Defined.

(** ** More on strings *)

Lemma dropwhile_split (p : char -> bool) (s : str) :
  exists ws, s = ws ++ dropwhile p s /\ forallb p ws = true.
Proof.
  induction s as [|c s (ws & E & F)]; simpl.
  - exists []; split; reflexivity.
  - destruct (p c) eqn:P.
    + exists (c :: ws); simpl. rewrite P, F. split; [f_equal; exact E | reflexivity].
    + exists []; split; reflexivity.
Qed.

Lemma dropwhile_idem (p : char -> bool) (s : str) :
  dropwhile p (dropwhile p s) = dropwhile p s.
Proof.
  induction s as [|c s IH]; simpl; [reflexivity|].
  destruct (p c) eqn:P; [exact IH | simpl; rewrite P; reflexivity].
Qed.

Lemma rstrip_split (s : str) :
  exists ws, s = rstrip s ++ ws /\ is_blank ws = true.
Proof.
  destruct (dropwhile_split isspace (rev s)) as (ws & E & F).
  exists (rev ws). unfold rstrip, is_blank. rewrite forallb_rev. split; [|exact F].
  rewrite <- rev_app_distr, <- E, rev_involutive; reflexivity.
Qed.

(** What [strip] returns is the string without a blank prefix and a blank
    suffix. *)
Lemma strip_split (s : str) :
  exists ws1 ws2,
    s = ws1 ++ strip s ++ ws2 /\ is_blank ws1 = true /\ is_blank ws2 = true.
Proof.
  destruct (dropwhile_split isspace s) as (ws1 & E1 & F1).
  destruct (rstrip_split (lstrip s)) as (ws2 & E2 & F2).
  exists ws1, ws2. unfold strip. rewrite <- E2. auto.
Qed.

Lemma rstrip_idem (s : str) : rstrip (rstrip s) = rstrip s.
Proof. unfold rstrip. rewrite rev_involutive, dropwhile_idem; reflexivity. Qed.

Lemma lstrip_rstrip_lstrip (s : str) : lstrip (strip s) = strip s.
Proof.
  unfold strip. destruct (lstrip s) as [|c z] eqn:Z; [reflexivity|].
  assert (C : isspace c = false).
  { destruct (isspace c) eqn:C; [|reflexivity].
    assert (H : dropwhile isspace (lstrip s) = lstrip s) by apply dropwhile_idem.
    rewrite Z in H; simpl in H; rewrite C in H.
    destruct (dropwhile_split isspace z) as (ws & E & _).
    apply (f_equal (@List.length char)) in E.
    rewrite H, length_app in E. simpl in E. lia. }
  destruct (rstrip_split (c :: z)) as (ws & E & F).
  destruct (rstrip (c :: z)) as [|c' y] eqn:R.
  - reflexivity.
  - simpl in E. injection E as <- _. unfold lstrip; simpl. rewrite C; reflexivity.
Qed.

Lemma strip_idem (s : str) : strip (strip s) = strip s.
Proof.
  unfold strip at 1. rewrite lstrip_rstrip_lstrip. unfold strip.
  apply rstrip_idem.
Qed.

Lemma count_strip_zero (c : char) (s : str) :
  count c s = 0%nat -> count c (strip s) = 0%nat.
Proof.
  destruct (strip_split s) as (ws1 & ws2 & E & _).
  intros H. rewrite E, !count_app in H. lia.
Qed.

Lemma clean_piece (line p : str) :
  In p (split equals line) -> clean (strip p).
Proof.
  intros H. split; [apply strip_idem|].
  apply count_strip_zero, (split_pieces equals line), H.
Qed.

Lemma count_filter_out (c : char) (s : str) :
  count c (replace_empty c s) = 0%nat.
Proof.
  unfold count, replace_empty. induction s as [|x s IH]; simpl; [reflexivity|].
  destruct (x =? c) eqn:E; simpl; [exact IH | rewrite E; exact IH].
Qed.

Lemma count_replace_le (c c' : char) (s : str) :
  (count c (replace_empty c' s) <= count c s)%nat.
Proof.
  unfold count, replace_empty. induction s as [|x s IH]; simpl; [lia|].
  destruct (x =? c'); simpl; destruct (x =? c); simpl; lia.
Qed.

Lemma replace_empty_absent (c : char) (s : str) :
  count c s = 0%nat -> replace_empty c s = s.
Proof.
  unfold replace_empty. induction s as [|x s IH]; simpl; [reflexivity|].
  rewrite count_cons. destruct (x =? c); simpl; [discriminate|].
  intros H; rewrite (IH H); reflexivity.
Qed.

Lemma replace_empty_app (c : char) (a b : str) :
  replace_empty c (a ++ b) = replace_empty c a ++ replace_empty c b.
Proof. apply filter_app. Qed.

Lemma section_name_bracket_free (line : str) : bracket_free (section_name line).
Proof.
  unfold bracket_free, section_name. split; [|apply count_filter_out].
  pose proof (count_replace_le lbracket rbracket (replace_empty lbracket line)).
  rewrite count_filter_out in H. lia.
Qed.

(** ** More on dictionaries *)

Lemma In_setitem {V : Type} (k a : str) (v b : V) (d : dict V) :
  In (a, b) (setitem k v d) -> (a = k /\ b = v) \/ In (a, b) d.
Proof.
  induction d as [|[k' v'] d IH]; simpl.
  - intros [E|[]]; injection E as <- <-; auto.
  - destruct (str_eqb k' k) eqn:E; simpl.
    + apply str_eqb_eq in E; subst k'.
      intros [H|H]; [injection H as <- <-; auto | auto].
    + intros [H|H]; [auto | destruct (IH H); auto].
Qed.

Lemma In_getitem {V : Type} (k : str) (v : V) (d : dict V) :
  getitem k d = Some v -> In (k, v) d.
Proof.
  induction d as [|[k' v'] d IH]; simpl; [discriminate|].
  destruct (str_eqb k' k) eqn:E.
  - apply str_eqb_eq in E; subst k'. intros H; injection H as <-; auto.
  - auto.
Qed.

Lemma setitem_setitem_same {V : Type} (k : str) (v1 v2 : V) (d : dict V) :
  setitem k v2 (setitem k v1 d) = setitem k v2 d.
Proof.
  induction d as [|[k' v'] d IH]; simpl.
  - rewrite str_eqb_refl; reflexivity.
  - destruct (str_eqb k' k) eqn:E; simpl; rewrite E; [reflexivity | f_equal; exact IH].
Qed.

Lemma keys_setitem {V : Type} (k : str) (v : V) (d : dict V) :
  keys (setitem k v d) = add_key (keys d) k.
Proof.
  unfold add_key, keys. induction d as [|[k' v'] d IH]; simpl; [reflexivity|].
  destruct (str_eqb k' k) eqn:E; simpl; [reflexivity|].
  rewrite IH. destruct (existsb _ (map fst d)); reflexivity.
Qed.

Lemma getitem_keys {V : Type} (k : str) (d : dict V) :
  getitem k d = None <-> existsb (fun k' => str_eqb k' k) (keys d) = false.
Proof.
  unfold keys. induction d as [|[k' v'] d IH]; simpl; [tauto|].
  destruct (str_eqb k' k); simpl; [split; discriminate | exact IH].
Qed.

(** ** Headers *)

Lemma is_header_branch (line : str) :
  is_header line = true <-> branch_of line = Header.
Proof.
  rewrite branch_of_cases. unfold is_header.
  destruct line as [|c rest]; [split; discriminate|].
  cbn [startswith].
  destruct (N.eqb_spec c lbracket) as [->|N].
  - split; reflexivity.
  - destruct (is_blank (c :: rest)), (c =? hash); split; discriminate.
Qed.

Lemma not_header_branch (line : str) :
  branch_of line <> Header -> is_header line = false.
Proof.
  intros H. destruct (is_header line) eqn:E; [|reflexivity].
  apply is_header_branch in E; contradiction.
Qed.

Lemma header_step (st : state) (rest : str) :
  step st (lbracket :: rest) = Ok (header st (lbracket :: rest)).
Proof.
  rewrite step_branch.
  assert (B : branch_of (lbracket :: rest) = Header)
    by (apply is_header_branch; reflexivity).
  rewrite B; reflexivity.
Qed.

(** X1: a line that reads [[name]tail], with no further bracket in
    [name] and [tail], is taken as a header and never refused, and the
    section it opens is called [name ++ tail]: nothing is stripped, and
    what follows the closing bracket stays in the name.  The section is
    assigned an empty mapping and becomes the current one. *)
Theorem header_line_opens_section (st : state) (name tail : str) :
  bracket_free name -> bracket_free tail ->
  section_name (lbracket :: name ++ rbracket :: tail) = name ++ tail
  /\ step st (lbracket :: name ++ rbracket :: tail)
     = Ok (mkState (setitem (name ++ tail) [] (test_dict st))
                   (Some (name ++ tail))).
Proof.
  intros [Nl Nr] [Tl Tr].
  assert (E : section_name (lbracket :: name ++ rbracket :: tail) = name ++ tail).
  { unfold section_name.
    change (replace_empty lbracket (lbracket :: name ++ rbracket :: tail))
      with (replace_empty lbracket (name ++ rbracket :: tail)).
    rewrite replace_empty_app.
    change (replace_empty lbracket (rbracket :: tail))
      with (rbracket :: replace_empty lbracket tail).
    rewrite (replace_empty_absent _ _ Nl), (replace_empty_absent _ _ Tl).
    rewrite replace_empty_app.
    change (replace_empty rbracket (rbracket :: tail))
      with (replace_empty rbracket tail).
    rewrite (replace_empty_absent _ _ Nr), (replace_empty_absent _ _ Tr).
    reflexivity. }
  split; [exact E|].
  rewrite header_step. unfold header. rewrite E; reflexivity.
Qed.

Lemma header_line_opens_section_witness :
  step init (lbracket :: lit "rhel 8" ++ rbracket :: lit " # base")
    = Ok (mkState [(lit "rhel 8 # base", [])] (Some (lit "rhel 8 # base"))).
Proof.
  exact (proj2 (header_line_opens_section init (lit "rhel 8") (lit " # base")
                  (conj eq_refl eq_refl) (conj eq_refl eq_refl))).
Defined.

(** ** The sections of a result *)

Lemma run_keys (st st' : state) (lines : list str) :
  run st lines = Ok st' ->
  keys (test_dict st')
    = fold_left add_key (header_names lines) (keys (test_dict st)).
Proof.
  revert st; induction lines as [|l lines IH]; intros st; simpl.
  - intros E; injection E as <-; reflexivity.
  - destruct (step st l) as [st1|e] eqn:S; simpl; [|discriminate].
    intros R. rewrite (IH _ R). unfold header_names; simpl.
    rewrite step_branch in S. destruct (branch_of l) eqn:B.
    + injection S as <-. rewrite not_header_branch by congruence; reflexivity.
    + injection S as <-. rewrite not_header_branch by congruence; reflexivity.
    + injection S as <-.
      rewrite (proj2 (is_header_branch l) B); simpl. rewrite keys_setitem; reflexivity.
    + rewrite not_header_branch by congruence.
      destruct (setting_keeps_sections _ _ _ S) as [_ K].
      unfold keys; rewrite K; reflexivity.
Qed.

Lemma parse_lines_ok (lines : list str) (d : dict (dict str)) :
  parse_lines lines = Ok d ->
  exists st, run init lines = Ok st /\ test_dict st = d.
Proof.
  unfold parse_lines. destruct (run init lines) as [st|e]; simpl; [|discriminate].
  intros E; injection E as <-. exists st; auto.
Qed.

Lemma In_fold_add_key (names ks : list str) (n : str) :
  In n (fold_left add_key names ks) -> In n ks \/ In n names.
Proof.
  revert ks; induction names as [|m names IH]; intros ks; simpl; [auto|].
  intros H. destruct (IH _ H) as [K|K]; [|auto].
  unfold add_key in K. destruct (existsb _ ks); [auto|].
  apply in_app_or in K as [K|[<-|[]]]; auto.
Qed.

(** X2: on success, the sections of the result are the names of the
    header lines, each once, in the order in which the names first occur in
    the file; a repeated header does not move its section. *)
Theorem sections_in_order_of_first_header (lines : list str) (d : dict (dict str)) :
  parse_lines lines = Ok d ->
  keys d = first_occurrences (header_names lines).
Proof.
  intros P. destruct (parse_lines_ok _ _ P) as (st & R & <-).
  apply (run_keys init st lines R).
Qed.

Lemma sections_in_order_of_first_header_witness :
  keys [(lit "b", []); (lit "a", [(lit "x", lit "1")])]
    = first_occurrences
        (header_names [lit "[b]"; lit "[a]"; lit "[b]"; lit "[a]"; lit "x=1"]).
Proof.
  exact (sections_in_order_of_first_header
           [lit "[b]"; lit "[a]"; lit "[b]"; lit "[a]"; lit "x=1"]
           [(lit "b", []); (lit "a", [(lit "x", lit "1")])] eq_refl).
Defined.

(** X3: on success, no section name of the result holds a bracket. *)
Theorem section_names_bracket_free (lines : list str) (d : dict (dict str)) (name : str) :
  parse_lines lines = Ok d -> In name (keys d) -> bracket_free name.
Proof.
  intros P. destruct (parse_lines_ok _ _ P) as (st & R & <-).
  rewrite (run_keys init st lines R). intros H.
  apply In_fold_add_key in H as [[]|H].
  unfold header_names in H. apply in_map_iff in H as (l & <- & _).
  apply section_name_bracket_free.
Qed.

Lemma section_names_bracket_free_witness : bracket_free (lit "main").
Proof.
  refine (section_names_bracket_free [lit "[[main]]"] [(lit "main", [])]
            (lit "main") eq_refl _).
  left; reflexivity.
Defined.

(** ** Setting lines *)

(** X4: a setting line [key=value] met in section [r] changes that
    section only, and in it the one key: the stripped key now has the
    stripped value, is appended when it is new and stays in place when it is
    not; every other key of the section, every other section, the order of
    the sections and the current section are as before. *)
Theorem setting_changes_one_key (st st' : state) (r key value : str) :
  count equals key = 0%nat -> count equals value = 0%nat ->
  branch_of (key ++ equals :: value) = Setting ->
  current_repo st = Some r ->
  step st (key ++ equals :: value) = Ok st' ->
  current_repo st' = Some r
  /\ keys (test_dict st') = keys (test_dict st)
  /\ (forall r', r' <> r ->
        getitem r' (test_dict st') = getitem r' (test_dict st))
  /\ exists inner inner',
       getitem r (test_dict st) = Some inner
       /\ getitem r (test_dict st') = Some inner'
       /\ getitem (strip key) inner' = Some (strip value)
       /\ keys inner' = add_key (keys inner) (strip key)
       /\ (forall k', k' <> strip key -> getitem k' inner' = getitem k' inner).
Proof.
  intros Ck Cv B C. rewrite step_branch, B, setting_pair, C by assumption.
  destruct (getitem r (test_dict st)) as [inner|] eqn:G; [|discriminate].
  intros E; injection E as <-; simpl. split; [reflexivity|]. split; [|split].
  - unfold keys. eapply keys_setitem_present; exact G.
  - intros r' N. apply getitem_setitem_other; congruence.
  - exists inner, (setitem (strip key) (strip value) inner).
    split; [reflexivity|]. split; [apply getitem_setitem_same|].
    split; [apply getitem_setitem_same|]. split; [apply keys_setitem|].
    intros k' N. apply getitem_setitem_other; congruence.
Qed.

Lemma setting_changes_one_key_witness :
  keys (test_dict (mkState [(lit "a", [(lit "x", lit "1"); (lit "y", lit "2")]);
                            (lit "b", [])] (Some (lit "a"))))
  = keys (test_dict (mkState [(lit "a", [(lit "x", lit "1"); (lit "y", lit "0")]);
                              (lit "b", [])] (Some (lit "a")))).
Proof.
  exact (proj1 (proj2 (setting_changes_one_key
           (mkState [(lit "a", [(lit "x", lit "1"); (lit "y", lit "0")]);
                     (lit "b", [])] (Some (lit "a")))
           (mkState [(lit "a", [(lit "x", lit "1"); (lit "y", lit "2")]);
                     (lit "b", [])] (Some (lit "a")))
           (lit "a") (lit "y ") (lit " 2")
           eq_refl eq_refl eq_refl eq_refl eq_refl))).
Defined.

(** X5: of two setting lines with the same stripped key, one after the
    other, the second wins and the first leaves no trace: the loop ends as if
    the first line had not been there (also when it raises because no
    section is open). *)
Theorem later_setting_wins (st : state) (k1 v1 k2 v2 : str) :
  count equals k1 = 0%nat -> count equals v1 = 0%nat ->
  count equals k2 = 0%nat -> count equals v2 = 0%nat ->
  branch_of (k1 ++ equals :: v1) = Setting ->
  branch_of (k2 ++ equals :: v2) = Setting ->
  strip k1 = strip k2 ->
  run st [k1 ++ equals :: v1; k2 ++ equals :: v2]
    = run st [k2 ++ equals :: v2].
Proof.
  intros Ck1 Cv1 Ck2 Cv2 B1 B2 K. cbn [run].
  rewrite (step_branch st (k1 ++ equals :: v1)), B1.
  rewrite (step_branch st (k2 ++ equals :: v2)), B2.
  rewrite !setting_pair by assumption.
  destruct (current_repo st) as [r|] eqn:C; [|reflexivity].
  destruct (getitem r (test_dict st)) as [inner|] eqn:G; [|reflexivity].
  cbn [bind]. rewrite step_branch, B2, setting_pair by assumption.
  cbn [current_repo test_dict].
  rewrite getitem_setitem_same, K, !setitem_setitem_same. reflexivity.
Qed.

Lemma later_setting_wins_witness :
  run (mkState [(lit "main", [(lit "enabled", lit "0")])] (Some (lit "main")))
      [lit "enabled" ++ equals :: lit "1"; lit "enabled " ++ equals :: lit " 2"]
  = run (mkState [(lit "main", [(lit "enabled", lit "0")])] (Some (lit "main")))
        [lit "enabled " ++ equals :: lit " 2"].
Proof.
  exact (later_setting_wins
           (mkState [(lit "main", [(lit "enabled", lit "0")])] (Some (lit "main")))
           (lit "enabled") (lit "1") (lit "enabled ") (lit " 2")
           eq_refl eq_refl eq_refl eq_refl eq_refl eq_refl eq_refl).
Defined.

(** ** When the loop succeeds *)

Lemma step_current (st st1 : state) (l : str) :
  step st l = Ok st1 ->
  (is_header l = true /\ current_repo st1 = Some (section_name l))
  \/ (is_header l = false /\ current_repo st1 = current_repo st).
Proof.
  rewrite step_branch. destruct (branch_of l) eqn:B.
  - intros E; injection E as <-. right. rewrite not_header_branch by congruence; auto.
  - intros E; injection E as <-. right. rewrite not_header_branch by congruence; auto.
  - intros E; injection E as <-. left. split; [apply is_header_branch, B | reflexivity].
  - intros S. right. rewrite not_header_branch by congruence.
    split; [reflexivity | apply (setting_keeps_sections _ _ _ S)].
Qed.

Lemma setting_ok_iff (st : state) (l : str) :
  open_section_present st ->
  (exists st1, setting st l = Ok st1)
  <-> (count equals l = 1%nat /\ current_repo st <> None).
Proof.
  intros I. split.
  - intros [st1 S]. destruct (Nat.eq_dec (count equals l) 1) as [C|C].
    + split; [exact C|]. intros N.
      destruct (split_one _ _ C) as (k & v & E & _).
      unfold setting in S. rewrite E, N in S. discriminate.
    + rewrite (setting_unpack_error st l C) in S. discriminate.
  - intros [C N]. destruct (split_one _ _ C) as (k & v & E & _).
    unfold setting. rewrite E.
    destruct (current_repo st) as [r|] eqn:R; [|congruence].
    destruct (I r R) as [inner ->]. eexists; reflexivity.
Qed.

Lemma run_ok_iff (lines : list str) :
  forall st, open_section_present st ->
  (exists st', run st lines = Ok st')
  <-> (forall pre line post,
         lines = pre ++ line :: post -> branch_of line = Setting ->
         count equals line = 1%nat
         /\ (current_repo st <> None \/ existsb is_header pre = true)).
Proof.
  induction lines as [|l ls IH]; intros st I.
  - split.
    + intros _ pre line post E. destruct pre; discriminate.
    + intros _. exists st; reflexivity.
  - split.
    + intros [st' R]. cbn [run] in R.
      destruct (step st l) as [st1|e] eqn:S; [|discriminate]. cbn [bind] in R.
      pose proof (step_present _ _ _ I S) as I1.
      intros [|p pre] line post E B; simpl in E; injection E as <- E.
      * rewrite step_branch, B in S.
        destruct (proj1 (setting_ok_iff st l I) (ex_intro _ st1 S)) as [C N]. auto.
      * destruct (proj1 (IH st1 I1) (ex_intro _ st' R) pre line post E B) as [C H].
        split; [exact C|]. simpl.
        destruct (step_current _ _ _ S) as [[Hh _]|[Hh Hc]].
        -- right. rewrite Hh; reflexivity.
        -- rewrite Hh. simpl. rewrite Hc in H. exact H.
    + intros H.
      assert (S : exists st1, step st l = Ok st1).
      { rewrite step_branch. destruct (branch_of l) eqn:B; try (eexists; reflexivity).
        apply setting_ok_iff; [exact I|].
        destruct (H [] l ls eq_refl B) as [C [N|N]]; [auto | discriminate]. }
      destruct S as [st1 S]. cbn [run]. rewrite S. cbn [bind].
      apply IH; [eapply step_present; eauto|].
      intros pre line post E B.
      destruct (H (l :: pre) line post (f_equal (cons l) E) B) as [C N].
      split; [exact C|]. simpl in N.
      destruct (step_current _ _ _ S) as [[Hh Hc]|[Hh Hc]].
      * left. rewrite Hc; discriminate.
      * rewrite Hh in N. simpl in N. rewrite Hc. exact N.
Qed.

Lemma parse_lines_ok_iff (lines : list str) :
  (exists d, parse_lines lines = Ok d)
  <-> (forall pre line post,
         lines = pre ++ line :: post -> branch_of line = Setting ->
         count equals line = 1%nat /\ existsb is_header pre = true).
Proof.
  pose proof (run_ok_iff lines init init_present) as H. split.
  - intros [d P]. destruct (parse_lines_ok _ _ P) as (st & R & _).
    intros pre line post E B.
    destruct (proj1 H (ex_intro _ st R) pre line post E B) as [C [N|N]].
    + exfalso; apply N; reflexivity.
    + auto.
  - intros W. destruct (proj2 H) as [st R].
    + intros pre line post E B. destruct (W pre line post E B); auto.
    + exists (test_dict st). unfold parse_lines. rewrite R; reflexivity.
Qed.

(** X6: the loop returns a dictionary exactly when every line that is
    neither blank, comment nor header holds exactly one [=] and has a
    header line somewhere before it; in every other case it raises. *)
Theorem parse_succeeds_iff (lines : list str) :
  (exists d, parse_lines lines = Ok d)
  <-> (forall pre line post,
         lines = pre ++ line :: post -> branch_of line = Setting ->
         count equals line = 1%nat /\ existsb is_header pre = true).
Proof. exact (parse_lines_ok_iff lines). Qed.

Lemma parse_succeeds_iff_witness :
  count equals (lit "gpgcheck = 1") = 1%nat
  /\ existsb is_header [lit "[main]"; lit "enabled=1"] = true.
Proof.
  refine (proj1 (parse_succeeds_iff sample_lines) _
            [lit "[main]"; lit "enabled=1"] (lit "gpgcheck = 1")
            [lit "# a comment"; []; lit "[updates]";
             lit "baseurl=http://example.com/updates"] eq_refl eq_refl).
  exists sample_view. reflexivity.
Defined.

(** ** What is stored *)

Lemma step_clean (st st1 : state) (l : str) :
  (forall name inner k v, In (name, inner) (test_dict st) -> In (k, v) inner ->
     clean k /\ clean v) ->
  step st l = Ok st1 ->
  forall name inner k v, In (name, inner) (test_dict st1) -> In (k, v) inner ->
    clean k /\ clean v.
Proof.
  intros I. rewrite step_branch. destruct (branch_of l).
  - intros E; injection E as <-; exact I.
  - intros E; injection E as <-; exact I.
  - intros E; injection E as <-. simpl. intros name inner k v H Hk.
    apply In_setitem in H as [[_ ->]|H]; [destruct Hk | eauto].
  - unfold setting. destruct (split equals l) as [|a [|b [|c ps]]] eqn:E; try discriminate.
    destruct (current_repo st) as [r|]; [|discriminate].
    destruct (getitem r (test_dict st)) as [inner0|] eqn:G; [|discriminate].
    intros S; injection S as <-. simpl. intros name inner k v H Hk.
    apply In_setitem in H as [[_ ->]|H]; [|eauto].
    apply In_setitem in Hk as [[-> ->]|Hk].
    + split; apply (clean_piece l); rewrite E; simpl; auto.
    + apply In_getitem in G. eauto.
Qed.

Lemma run_clean (lines : list str) :
  forall st st',
  (forall name inner k v, In (name, inner) (test_dict st) -> In (k, v) inner ->
     clean k /\ clean v) ->
  run st lines = Ok st' ->
  forall name inner k v, In (name, inner) (test_dict st') -> In (k, v) inner ->
    clean k /\ clean v.
Proof.
  induction lines as [|l ls IH]; intros st st' I; cbn [run].
  - intros E; injection E as <-; exact I.
  - destruct (step st l) as [st1|e] eqn:S; [|discriminate]. cbn [bind].
    apply IH. eapply step_clean; eauto.
Qed.

(** X7: on success, every key and every value stored in any section of
    the result is free of whitespace at both ends (stripping it again
    changes nothing) and holds no [=]. *)
Theorem stored_settings_are_clean (lines : list str) (d : dict (dict str))
    (name : str) (inner : dict str) (k v : str) :
  parse_lines lines = Ok d ->
  In (name, inner) d -> In (k, v) inner ->
  clean k /\ clean v.
Proof.
  intros P. destruct (parse_lines_ok _ _ P) as (st & R & <-).
  apply (run_clean lines init st); [|exact R].
  intros ? ? ? ? [].
Qed.

Lemma stored_settings_are_clean_witness :
  clean (lit "gpgcheck") /\ clean (lit "1").
Proof.
  refine (stored_settings_are_clean sample_lines sample_view (lit "main")
            [(lit "enabled", lit "1"); (lit "gpgcheck", lit "1")]
            (lit "gpgcheck") (lit "1") eq_refl _ _).
  - left; reflexivity.
  - right; left; reflexivity.
Defined.

(** ** The contents of a section *)

Lemma run_app_ok (st st' : state) (a b : list str) :
  run st (a ++ b) = Ok st' ->
  exists st1, run st a = Ok st1 /\ run st1 b = Ok st'.
Proof.
  rewrite run_app. destruct (run st a) as [st1|e]; [|discriminate].
  intros R. exists st1; auto.
Qed.

Lemma run_block (body : list str) :
  forall st st' n inner,
  forallb (fun l => negb (is_header l)) body = true ->
  current_repo st = Some n -> getitem n (test_dict st) = Some inner ->
  run st body = Ok st' ->
  current_repo st' = Some n
  /\ getitem n (test_dict st') = Some (put_all inner (settings_of body)).
Proof.
  induction body as [|l body IH]; intros st st' n inner NH C G; cbn [run].
  - intros E; injection E as <-; auto.
  - simpl in NH. apply andb_true_iff in NH as [Hl NH].
    apply negb_true_iff in Hl.
    destruct (step st l) as [st1|e] eqn:S; [|discriminate]. cbn [bind].
    rewrite step_branch in S. unfold settings_of; cbn [flat_map].
    fold (settings_of body).
    destruct (branch_of l) eqn:B.
    + injection S as <-.
      rewrite (proj2 (skipped_branch l) (or_introl B)). apply IH; auto.
    + injection S as <-.
      rewrite (proj2 (skipped_branch l) (or_intror B)). apply IH; auto.
    + apply is_header_branch in B; congruence.
    + assert (Sk : skipped l = false).
      { destruct (skipped l) eqn:Sk; [|reflexivity].
        apply skipped_branch in Sk as [Sk|Sk]; congruence. }
      rewrite Sk. unfold setting, key_value in *.
      destruct (split equals l) as [|a [|b [|c ps]]]; try discriminate.
      rewrite C, G in S. injection S as <-.
      intros R.
      refine (IH _ _ n (setitem (strip a) (strip b) inner) NH _ _ R).
      * reflexivity.
      * simpl. apply getitem_setitem_same.
Qed.

Lemma run_elsewhere (post : list str) :
  forall st st' n,
  current_repo st <> Some n ->
  (forall h, In h post -> is_header h = true -> section_name h <> n) ->
  run st post = Ok st' ->
  getitem n (test_dict st') = getitem n (test_dict st).
Proof.
  induction post as [|l post IH]; intros st st' n C H; cbn [run].
  - intros E; injection E as <-; reflexivity.
  - destruct (step st l) as [st1|e] eqn:S; [|discriminate]. cbn [bind].
    intros R. rewrite (IH st1 st' n); [| | intros h Hh; apply H; right; exact Hh | exact R].
    + rewrite step_branch in S. destruct (branch_of l) eqn:B.
      * injection S as <-; reflexivity.
      * injection S as <-; reflexivity.
      * injection S as <-. simpl. apply getitem_setitem_other.
        apply H; [left; reflexivity | apply is_header_branch, B].
      * unfold setting in S.
        destruct (split equals l) as [|a [|b [|c ps]]]; try discriminate.
        destruct (current_repo st) as [r|]; [|discriminate].
        destruct (getitem r (test_dict st)); [|discriminate].
        injection S as <-. simpl. apply getitem_setitem_other. congruence.
    + destruct (step_current _ _ _ S) as [[Hh Hc]|[_ Hc]]; rewrite Hc.
      * intros E; injection E as E. apply (H l); [left; reflexivity | exact Hh | exact E].
      * exact C.
Qed.

(** X8: on success, a section holds the settings of the LAST block that
    its name heads: for a header line followed by lines without header up to
    the next header or the end, and no later header giving the same name,
    the section is exactly the key/value pairs of the block's setting lines,
    stripped, entered in the order of the lines into an empty mapping (a key
    written twice keeps its first place and its last value). *)
Theorem section_holds_last_block
    (pre body post : list str) (hdr : str) (d : dict (dict str)) :
  is_header hdr = true ->
  forallb (fun l => negb (is_header l)) body = true ->
  (post = [] \/ exists h rest, post = h :: rest /\ is_header h = true) ->
  (forall h, In h post -> is_header h = true ->
     section_name h <> section_name hdr) ->
  parse_lines (pre ++ hdr :: body ++ post) = Ok d ->
  getitem (section_name hdr) d = Some (put_all [] (settings_of body)).
Proof.
  intros Hh NH Hpost Hother P.
  destruct (parse_lines_ok _ _ P) as (st & R & <-).
  apply run_app_ok in R as (st0 & _ & R). cbn [run] in R.
  rewrite step_branch, (proj1 (is_header_branch hdr) Hh) in R. cbn [bind] in R.
  apply run_app_ok in R as (st2 & Rb & Rp).
  assert (G1 : getitem (section_name hdr) (test_dict (header st0 hdr)) = Some [])
    by apply getitem_setitem_same.
  destruct (run_block body (header st0 hdr) st2 (section_name hdr) [] NH
              eq_refl G1 Rb) as [C2 G2].
  rewrite <- G2. destruct Hpost as [->|(h & rest & -> & Hh')].
  - cbn [run] in Rp. injection Rp as <-; reflexivity.
  - cbn [run] in Rp.
    rewrite step_branch, (proj1 (is_header_branch h) Hh') in Rp. cbn [bind] in Rp.
    rewrite (run_elsewhere rest _ _ (section_name hdr)) with (3 := Rp).
    + simpl. apply getitem_setitem_other. apply Hother; [left; reflexivity | exact Hh'].
    + simpl. intros E; injection E as E.
      apply (Hother h); [left; reflexivity | exact Hh' | exact E].
    + intros h' Hin. apply Hother; right; exact Hin.
Qed.

Lemma section_holds_last_block_witness :
  getitem (section_name (lit "[a]"))
    [(lit "a", [(lit "y", lit "3"); (lit "z", lit "4")]); (lit "b", [])]
  = Some (put_all [] (settings_of [lit "y = 2"; lit "# c"; lit "z=4"; lit "y=3"])).
Proof.
  refine (section_holds_last_block
            [lit "[a]"; lit "x=1"] [lit "y = 2"; lit "# c"; lit "z=4"; lit "y=3"]
            [lit "[b]"] (lit "[a]")
            [(lit "a", [(lit "y", lit "3"); (lit "z", lit "4")]); (lit "b", [])]
            eq_refl eq_refl _ _ eq_refl).
  - right. exists (lit "[b]"), []. split; reflexivity.
  - intros h [<-|[]] _. discriminate.
Defined.

(** ** Files without sections *)

Lemma fold_add_key_not_nil (names ks : list str) :
  ks <> [] -> fold_left add_key names ks <> [].
Proof.
  revert ks; induction names as [|m names IH]; intros ks H; simpl; [exact H|].
  apply IH. unfold add_key. destruct (existsb _ ks); [exact H|].
  destruct ks; discriminate.
Qed.

Lemma run_nonempty (st st' : state) (lines : list str) :
  test_dict st <> [] -> run st lines = Ok st' -> test_dict st' <> [].
Proof.
  intros N R E. pose proof (run_keys _ _ _ R) as K. rewrite E in K.
  symmetry in K. revert K. apply fold_add_key_not_nil.
  unfold keys. destruct (test_dict st); [congruence | discriminate].
Qed.

Lemma setitem_not_nil {V : Type} (k : str) (v : V) (d : dict V) :
  setitem k v d <> [].
Proof. destruct d as [|[k' v'] d]; simpl; [|destruct (str_eqb k' k)]; discriminate. Qed.

(** X9: the result is the empty dictionary exactly when the file holds
    nothing but blank lines and comments (the empty file included); a file
    with any other line gives a non-empty dictionary or raises. *)
Theorem empty_result_iff_nothing_but_skipped (lines : list str) :
  parse_lines lines = Ok [] <-> forallb skipped lines = true.
Proof.
  split.
  - intros P. destruct (parse_lines_ok _ _ P) as (st & R & E).
    clear P. revert R. generalize init.
    induction lines as [|l ls IH]; intros st0; cbn [run]; [reflexivity|].
    destruct (step st0 l) as [st1|e] eqn:S; [|discriminate]. cbn [bind].
    intros R. simpl. rewrite step_branch in S. destruct (branch_of l) eqn:B.
    + rewrite (proj2 (skipped_branch l) (or_introl B)). simpl. eapply IH; eauto.
    + rewrite (proj2 (skipped_branch l) (or_intror B)). simpl. eapply IH; eauto.
    + injection S as <-. exfalso.
      refine (run_nonempty _ _ _ _ R E). simpl. apply setitem_not_nil.
    + exfalso. unfold setting in S.
      destruct (split equals l) as [|a [|b [|c ps]]]; try discriminate.
      destruct (current_repo st0) as [r|]; [|discriminate].
      destruct (getitem r (test_dict st0)); [|discriminate].
      injection S as <-.
      refine (run_nonempty _ _ _ _ R E). simpl. apply setitem_not_nil.
  - intros H. unfold parse_lines. rewrite (run_skipped _ _ H); reflexivity.
Qed.

Lemma empty_result_iff_nothing_but_skipped_witness :
  parse_lines [lit "# only"; lit "   "; []; lit "#comments"] = Ok [].
Proof.
  exact (proj2 (empty_result_iff_nothing_but_skipped
                  [lit "# only"; lit "   "; []; lit "#comments"]) eq_refl).
Defined.

(** ** Texts *)

Lemma split_concat (sep : char) (a b : str) :
  split sep (a ++ sep :: b) = split sep a ++ split sep b.
Proof.
  induction a as [|c a IH]; simpl.
  - rewrite N.eqb_refl; reflexivity.
  - destruct (c =? sep); [rewrite IH; reflexivity|].
    rewrite IH. destruct (split sep a) as [|p ps] eqn:E; [|reflexivity].
    destruct (split_not_nil _ _ E).
Qed.

(** X10: the parse of two texts put together with a newline between them
    is the loop over the lines of the first, continued over the lines of the
    second from the state the first one leaves, so that settings at the head
    of the second text go to the last section of the first; and a newline at
    the end of a text changes nothing. *)
Theorem parse_of_concatenation (a b : str) :
  parse (a ++ nl :: b)
    = (st <- run init (split nl a) ;;
       st' <- run st (split nl b) ;; Ok (test_dict st'))
  /\ parse (a ++ [nl]) = parse a.
Proof.
  assert (G : forall c, parse (a ++ nl :: c)
                = (st <- run init (split nl a) ;;
                   st' <- run st (split nl c) ;; Ok (test_dict st'))).
  { intros c. unfold parse, parse_lines. rewrite split_concat, run_app.
    destruct (run init (split nl a)); reflexivity. }
  split; [apply G|]. rewrite G. unfold parse, parse_lines.
  destruct (run init (split nl a)); reflexivity.
Qed.

(** ** The module and the script *)

(** X11: outside check mode the module ends with [exit_json] exactly
    when the path exists, the read succeeds, and in the lines of the text
    every line that is neither blank, comment nor header holds exactly one
    [=] and comes after a header; the result it then returns has
    [changed] true, [failed] false and a parsed dictionary, never the
    placeholder.  In every other case it ends with [fail_json] or with an
    exception. *)
Theorem module_succeeds_iff (fs : filesystem) (path : str) :
  ((exists r, run_module fs path false = exit_json r)
   <-> (exists_ fs path = true
        /\ exists text,
             read_text fs path = Ok text
             /\ forall pre line post,
                  split nl text = pre ++ line :: post ->
                  branch_of line = Setting ->
                  count equals line = 1%nat /\ existsb is_header pre = true))
  /\ (forall r, run_module fs path false = exit_json r ->
        changed r = true /\ failed r = false
        /\ exists text d, read_text fs path = Ok text /\ parse text = Ok d
                          /\ repo_view r = View d).
Proof.
  split; [split|].
  - intros [r H]. unfold run_module, validate_path in H.
    destruct (exists_ fs path); [|discriminate]. split; [reflexivity|].
    simpl in H. destruct (read_text fs path) as [text|e]; [|discriminate].
    exists text. split; [reflexivity|].
    apply parse_lines_ok_iff. unfold parse in H.
    destruct (parse_lines (split nl text)) as [d|e]; [|discriminate].
    exists d; reflexivity.
  - intros (E & text & R & W). apply parse_lines_ok_iff in W as [d P].
    exists (mkResult true false (View d)).
    rewrite (run_module_reads _ _ _ E R). unfold parse. rewrite P; reflexivity.
  - intros r H. unfold run_module, validate_path in H.
    destruct (exists_ fs path); [|discriminate]. simpl in H.
    destruct (read_text fs path) as [text|e]; [|discriminate].
    destruct (parse text) as [d|e] eqn:P; [|discriminate].
    injection H as <-. simpl. repeat split. exists text, d. auto.
Qed.

Lemma module_succeeds_iff_witness :
  exists r, run_module (one_file_fs (lit "/a.repo") (join nl sample_lines))
                       (lit "/a.repo") false = exit_json r.
Proof.
  apply (proj2 (proj1 (module_succeeds_iff
                        (one_file_fs (lit "/a.repo") (join nl sample_lines))
                        (lit "/a.repo")))).
  split; [reflexivity|]. exists (join nl sample_lines). split; [reflexivity|].
  apply parse_lines_ok_iff. exists sample_view. reflexivity.
Defined.

(** When the fixed repo file exists, the module called on that path and
    the stand-alone script do the same: where the script ends with a
    dictionary the module returns it through [exit_json], and where the
    script raises the module raises the same exception. *)
Lemma script_agrees_with_module (fs : filesystem) :
  exists_ fs repo_file = true ->
  run_module fs repo_file false
    = match script fs with
      | Ok d => exit_json (mkResult true false (View d))
      | Raise e => uncaught e
      end.
Proof.
  intros E. unfold run_module, validate_path, script. rewrite E. simpl.
  destruct (read_text fs repo_file); reflexivity.
Qed.
